(** * pdfTableExtractor: a shallow embedding of
      [backend/services/extractors/pdfTableExtractor.py]

    The script opens a PDF with pdfplumber, asks every page for its tables,
    cleans the cell grids and prints one JSON object.  Python values are
    modelled as follows:

    - a [str] is its sequence of Unicode code points;
    - a raw cell is [option str] ([None] is Python's [None]);
    - the [results] dictionary and the per-table dictionaries have fixed
      keys and are records; [Results_json] gives the dictionaries back, keys
      in insertion order, for [json.dumps];
    - exceptions and the calls that are visible from outside the process
      (opening and closing the document, printing) live in a small monad
      [M]: a trace of events together with a value or a raised exception;
    - pdfplumber itself is an interface ([PdfPlumber]), the only part of the
      program that is not in the script. *)

From Stdlib Require Import Ascii String DecimalString.
From Stdlib Require Import List ZArith NArith Bool Lia Sorted.
Import ListNotations.

Local Open Scope Z_scope.

(** ** Python strings *)

Module PyStr.

Definition codepoint := N.
Definition str := list codepoint.

(** An ASCII literal of the source as a [str]. *)
Definition lit (s : string) : str := map N_of_ascii (list_ascii_of_string s).

(** [bool(s)]: a string is falsy exactly when it is empty. *)
Definition truthy (s : str) : bool :=
  match s with
  | [] => false
  | _ :: _ => true
  end.

Definition between (lo hi c : N) : bool := (N.leb lo c && N.leb c hi)%bool.

(** The code points [str.strip()] removes when called without argument
    (CPython's [_PyUnicode_IsWhitespace]). *)
Definition isspace (c : codepoint) : bool :=
  (between 0x09 0x0D c || between 0x1C 0x1F c || N.eqb c 0x20
   || N.eqb c 0x85 || N.eqb c 0xA0 || N.eqb c 0x1680
   || between 0x2000 0x200A c || N.eqb c 0x2028 || N.eqb c 0x2029
   || N.eqb c 0x202F || N.eqb c 0x205F || N.eqb c 0x3000)%bool.

Fixpoint lstrip (s : str) : str :=
  match s with
  | [] => []
  | c :: s' => if isspace c then lstrip s' else s
  end.

Definition rstrip (s : str) : str := rev (lstrip (rev s)).

(** [s.strip()]: the left end is trimmed first, then the right end of
    what is left. *)
Definition strip (s : str) : str := rstrip (lstrip s).

Definition newline : str := [0x0A%N].

(** [a == b] *)
Fixpoint eqb (a b : str) : bool :=
  match a, b with
  | [], [] => true
  | c :: a', d :: b' => (N.eqb c d && eqb a' b')%bool
  | _, _ => false
  end.

End PyStr.
Import PyStr.

(** ** The cell grid returned by table detection, and its cleaning *)

Definition raw_cell := option str.
Definition raw_row := list raw_cell.
Definition raw_table := list raw_row.

(** [cell.strip() if cell else ""]: [None] and the empty string are both
    falsy. *)
Definition clean_cell (cell : raw_cell) : str :=
  match cell with
  | Some s => if truthy s then strip s else []
  | None => []
  end.

(** [[(cell.strip() if cell else "") for cell in row]] *)
Definition cleaned_row (row : raw_row) : list str := map clean_cell row.

(** [any(cleaned_row)] *)
Definition any (l : list str) : bool := existsb truthy l.

(** The inner loop: [cleaned_rows] starts empty and every row whose cleaned
    form has a truthy cell is appended. *)
Definition cleaned_rows_step (acc : list (list str)) (row : raw_row) : list (list str) :=
  let cleaned_row := cleaned_row row in
  if any cleaned_row then acc ++ [cleaned_row] else acc.

Definition cleaned_rows (table : raw_table) : list (list str) :=
  fold_left cleaned_rows_step table [].

(** ** The result dictionaries *)

Record TableRecord := mkTable {
  page : Z;
  headers : list str;
  rows : list (list str)
}.

Record Results := mkResults {
  tables : list TableRecord;
  has_tables : bool;
  page_count : Z
}.

Definition len {A} (l : list A) : Z := Z.of_nat (length l).

Definition set_page_count (results : Results) (n : Z) : Results :=
  mkResults (tables results) (has_tables results) n.

Definition set_has_tables (results : Results) (b : bool) : Results :=
  mkResults (tables results) b (page_count results).

(** [results["tables"].append(t)] *)
Definition tables_append (results : Results) (t : TableRecord) : Results :=
  mkResults (tables results ++ [t]) (has_tables results) (page_count results).

(** The body of [for table in tables]: clean the table and, if a row is
    left, append its dictionary.  [cleaned_rows[1:]] is [skipn 1]. *)
Definition append_table (page_num : Z) (results : Results) (table : raw_table) : Results :=
  let cleaned_rows := cleaned_rows table in
  match cleaned_rows with
  | [] => results
  | first :: _ =>
      tables_append results
        {| page := page_num + 1;
           headers := first;
           rows := if 1 <? len cleaned_rows then skipn 1 cleaned_rows else cleaned_rows |}
  end.

(** The body of [for page_num, page in enumerate(pdf.pages)], once
    [page.extract_tables()] has returned [tables]. *)
Definition scan_tables (page_num : Z) (results : Results) (tables : list raw_table) : Results :=
  match tables with
  | [] => results
  | _ :: _ => fold_left (append_table page_num) tables (set_has_tables results true)
  end.

Fixpoint enumerate_from {A} (start : Z) (l : list A) : list (Z * A) :=
  match l with
  | [] => []
  | x :: l' => (start, x) :: enumerate_from (start + 1) l'
  end.

Definition enumerate {A} (l : list A) : list (Z * A) := enumerate_from 0 l.

(** ** Exceptions and observable events *)

(** The two kinds of exception the script meets: an [Exception] with the
    text [str(e)], and the [SystemExit] that [sys.exit] raises, which
    [except Exception] does not catch. *)
Inductive exn :=
| PyException (msg : str)
| SystemExit (code : Z).

Inductive event :=
| Open (path : str)
| Close
| Print (text : str).

Definition trace := list event.

(** A computation: what it did, and its value or the exception it raised. *)
Definition M (A : Type) : Type := trace * (exn + A).

Definition ret {A} (a : A) : M A := ([], inr a).

Definition bind {A B} (m : M A) (f : A -> M B) : M B :=
  match m with
  | (t, inl e) => (t, inl e)
  | (t, inr a) => let (t', r) := f a in (t ++ t', r)
  end.

Definition raise {A} (e : exn) : M A := ([], inl e).

Definition emit (ev : event) : M unit := ([ev], inr tt).

(** A library call: a fault of the library is an [Exception]. *)
Definition call {A} (r : str + A) : M A :=
  match r with
  | inl msg => raise (PyException msg)
  | inr a => ret a
  end.

(** [try: body / except Exception as e: handler(str(e))] *)
Definition try_except {A} (body : M A) (handler : str -> M A) : M A :=
  match body with
  | (t, inl (PyException msg)) => let (t', r) := handler msg in (t ++ t', r)
  | other => other
  end.

(** [cleanup] runs on every way out of [body]; the exception of [body], if
    any, goes on afterwards. *)
Definition finally {A} (body : M A) (cleanup : M unit) : M A :=
  match body with
  | (t, r) =>
      match cleanup with
      | (t', inr _) => (t ++ t', r)
      | (t', inl e) => (t ++ t', inl e)
      end
  end.

Declare Scope py_scope.
Delimit Scope py_scope with py.
Notation "x <- m ;; k" := (bind m (fun x => k))
  (at level 61, m at next level, right associativity) : py_scope.
Notation "m ;; k" := (bind m (fun _ => k))
  (at level 61, right associativity) : py_scope.
Local Open Scope py_scope.

(** [for x in l: s = body s x], stopping at the first exception. *)
Fixpoint for_each {A S} (l : list A) (body : S -> A -> M S) (s : S) : M S :=
  match l with
  | [] => ret s
  | x :: l' => s' <- body s x ;; for_each l' body s'
  end.

Definition print (text : str) : M unit := emit (Print text).

Definition sys_exit {A} (code : Z) : M A := raise (SystemExit code).

(** ** pdfplumber *)

(** What the script uses of pdfplumber.  Each call returns its value or
    fails with the message of the exception it raises. *)
Class PdfPlumber := {
  PDF : Type;
  Page : Type;
  pdfplumber_open : str -> str + PDF;
  pdf_pages : PDF -> str + list Page;
  page_extract_tables : Page -> str + list raw_table
}.

(** ** The extractor *)

Section Extractor.

Context {lib : PdfPlumber}.

(** [with pdfplumber.open(pdf_path) as pdf: body]: nothing is closed when
    opening fails, and the document is closed on every way out of the
    body. *)
Definition with_open {A} (pdf_path : str) (body : PDF -> M A) : M A :=
  emit (Open pdf_path) ;;
  pdf <- call (pdfplumber_open pdf_path) ;;
  finally (body pdf) (emit Close).

(** One round of [for page_num, page in enumerate(pdf.pages)]. *)
Definition scan_page (results : Results) (item : Z * Page) : M Results :=
  let (page_num, page) := item in
  tables <- call (page_extract_tables page) ;;
  ret (scan_tables page_num results tables).

(** [extract_tables(pdf_path)].  The script reads [pdf.pages] twice, for
    [len] and for the loop. *)
Definition extract_tables (pdf_path : str) : M Results :=
  let results := {| tables := []; has_tables := false; page_count := 0 |} in
  with_open pdf_path (fun pdf =>
    pages <- call (pdf_pages pdf) ;;
    let results := set_page_count results (len pages) in
    pages <- call (pdf_pages pdf) ;;
    for_each (enumerate pages) scan_page results).

End Extractor.

(** ** json.dumps *)

Module Json.

#[local] Set Warnings "-register-all".

(** The values [json.dumps] is given here.  A dictionary keeps its
    insertion order. *)
Inductive json :=
| JNull
| JBool (b : bool)
| JInt (z : Z)
| JStr (s : str)
| JList (l : list json)
| JDict (kv : list (str * json)).

Definition quote : codepoint := 34%N.
Definition backslash : codepoint := 92%N.

Definition hex_digit (d : N) : codepoint :=
  if N.ltb d 10 then (48 + d)%N else (87 + d)%N.

(** [format(n, "04x")] for [n < 0x10000]. *)
Definition hex4 (n : N) : str :=
  [hex_digit (N.land (N.shiftr n 12) 15); hex_digit (N.land (N.shiftr n 8) 15);
   hex_digit (N.land (N.shiftr n 4) 15); hex_digit (N.land n 15)].

Definition uescape (n : N) : str := backslash :: 117%N :: hex4 n.

(** One character under the default [ensure_ascii=True]: the short
    escapes, printable ASCII as it is, [\uXXXX] for the rest, as a
    surrogate pair above the basic plane. *)
Definition escape_char (c : codepoint) : str :=
  if N.eqb c 34 then [backslash; quote]
  else if N.eqb c 92 then [backslash; backslash]
  else if N.eqb c 10 then [backslash; 110%N]
  else if N.eqb c 13 then [backslash; 114%N]
  else if N.eqb c 9 then [backslash; 116%N]
  else if N.eqb c 8 then [backslash; 98%N]
  else if N.eqb c 12 then [backslash; 102%N]
  else if (N.leb 32 c && N.leb c 126)%bool then [c]
  else if N.ltb c 0x10000 then uescape c
  else
    let n := (c - 0x10000)%N in
    uescape (N.lor 0xD800 (N.land (N.shiftr n 10) 0x3FF))
    ++ uescape (N.lor 0xDC00 (N.land n 0x3FF)).

Definition encode_string (s : str) : str :=
  quote :: flat_map escape_char s ++ [quote].

Definition encode_int (z : Z) : str := lit (NilEmpty.string_of_int (Z.to_int z)).

(** [sep.join(parts)] *)
Fixpoint join (sep : str) (parts : list str) : str :=
  match parts with
  | [] => []
  | [p] => p
  | p :: rest => p ++ sep ++ join sep rest
  end.

(** [json.dumps(v)] with the default separators [", "] and [": "]. *)
Fixpoint dumps (v : json) : str :=
  match v with
  | JNull => lit "null"
  | JBool true => lit "true"
  | JBool false => lit "false"
  | JInt z => encode_int z
  | JStr s => encode_string s
  | JList l => lit "[" ++ join (lit ", ") (map dumps l) ++ lit "]"
  | JDict kv =>
      lit "{"
      ++ join (lit ", ")
           (map (fun item => encode_string (fst item) ++ lit ": " ++ dumps (snd item)) kv)
      ++ lit "}"
  end.

(** [d.get(key)] on a dictionary. *)
Fixpoint lookup (key : str) (kv : list (str * json)) : option json :=
  match kv with
  | [] => None
  | (k, v) :: rest => if eqb k key then Some v else lookup key rest
  end.

Definition get (key : str) (v : json) : option json :=
  match v with
  | JDict kv => lookup key kv
  | _ => None
  end.

End Json.
Import Json.

(** The dictionaries of the script as JSON values, keys in the order the
    script inserts them. *)
Definition row_json (row : list str) : json := JList (map JStr row).

Definition TableRecord_json (t : TableRecord) : json :=
  JDict [(lit "page", JInt (page t));
         (lit "headers", row_json (headers t));
         (lit "rows", JList (map row_json (rows t)))].

Definition Results_json (results : Results) : json :=
  JDict [(lit "tables", JList (map TableRecord_json (tables results)));
         (lit "has_tables", JBool (has_tables results));
         (lit "page_count", JInt (page_count results))].

Definition error_json (msg : str) : json := JDict [(lit "error", JStr msg)].

(** ** The script's entry point *)

(** What the operating system sees of a run. *)
Record outcome := mkOutcome {
  events : trace;
  exit_status : Z
}.

Section Main.

Context {lib : PdfPlumber}.

(** The [__main__] block; [argv] is [sys.argv]. *)
Definition main (argv : list str) : M unit :=
  if len argv <? 2 then
    print (dumps (error_json (lit "PDF path required"))) ;;
    sys_exit 1
  else
    try_except
      (result <- extract_tables (nth 1 argv []) ;;
       print (dumps (Results_json result)))
      (fun msg =>
         print (dumps (error_json msg)) ;;
         sys_exit 1).

(** An exit status of 0 when the script runs to its end, the argument of
    [sys.exit], and 1 for an exception nobody caught. *)
Definition run (argv : list str) : outcome :=
  match main argv with
  | (t, inr _) => mkOutcome t 0
  | (t, inl (SystemExit code)) => mkOutcome t code
  | (t, inl (PyException _)) => mkOutcome t 1
  end.

End Main.

(** [print] writes its argument and a newline. *)
Fixpoint stdout (t : trace) : str :=
  match t with
  | [] => []
  | Print text :: t' => text ++ newline ++ stdout t'
  | _ :: t' => stdout t'
  end.

(** The paths the run tried to open. *)
Fixpoint opened (t : trace) : list str :=
  match t with
  | [] => []
  | Open path :: t' => path :: opened t'
  | _ :: t' => opened t'
  end.

(** * The vocabulary of the statements *)

(** A string that neither starts nor ends with whitespace. *)
Definition trimmed (s : str) : Prop :=
  match s with
  | [] => True
  | c :: _ => isspace c = false
  end /\
  match rev s with
  | [] => True
  | c :: _ => isspace c = false
  end.

(** The dictionaries one raw table adds to [results["tables"]]: none, or
    one. *)
Definition emitted (page_num : Z) (table : raw_table) : list TableRecord :=
  match cleaned_rows table with
  | [] => []
  | [only] => [mkTable (page_num + 1) only [only]]
  | first :: rest => [mkTable (page_num + 1) first rest]
  end.

Definition nonempty {A} (l : list A) : bool :=
  match l with
  | [] => false
  | _ :: _ => true
  end.

(** What the pages numbered from [start] add to [results["tables"]], given
    the raw tables detected on each. *)
Fixpoint emitted_pages (start : Z) (detected : list (list raw_table)) : list TableRecord :=
  match detected with
  | [] => []
  | tables :: rest => flat_map (emitted start) tables ++ emitted_pages (start + 1) rest
  end.

(** The values of a list of outcomes, or the first failure. *)
Fixpoint collect {A} (l : list (str + A)) : str + list A :=
  match l with
  | [] => inr []
  | inl msg :: _ => inl msg
  | inr a :: rest =>
      match collect rest with
      | inl msg => inl msg
      | inr values => inr (a :: values)
      end
  end.

(** The texts the run printed. *)
Fixpoint printed (t : trace) : list str :=
  match t with
  | [] => []
  | Print text :: t' => text :: printed t'
  | _ :: t' => printed t'
  end.

(** [{"error": "<msg>"}], the message escaped as [json.dumps] does. *)
Definition error_line (msg : str) : str :=
  lit "{" ++ [quote] ++ lit "error" ++ [quote] ++ lit ": "
  ++ [quote] ++ flat_map escape_char msg ++ [quote] ++ lit "}".

(** [{"error": "PDF path required"}] *)
Definition path_required_line : str :=
  lit "{" ++ [quote] ++ lit "error" ++ [quote] ++ lit ": "
  ++ [quote] ++ lit "PDF path required" ++ [quote] ++ lit "}".

Section Vocabulary.

Context {lib : PdfPlumber}.

(** The raw tables of each page in turn, up to the first page on which
    detection fails. *)
Fixpoint detections (pages : list Page) : str + list (list raw_table) :=
  match pages with
  | [] => inr []
  | page :: rest =>
      match page_extract_tables page with
      | inl msg => inl msg
      | inr tabs =>
          match detections rest with
          | inl msg => inl msg
          | inr detected => inr (tabs :: detected)
          end
      end
  end.

(** Detection on the page of 0-based index [i] of the document at
    [pdf_path] returns [table] among its tables. *)
Definition detected_on (pdf_path : str) (i : nat) (table : raw_table) : Prop :=
  exists pdf pages page tabs,
    pdfplumber_open pdf_path = inr pdf /\ pdf_pages pdf = inr pages /\
    nth_error pages i = Some page /\ page_extract_tables page = inr tabs /\
    In table tabs.

(** The document at [pdf_path] cannot be opened, or its pages cannot be
    read, or detection fails on a page after it succeeded on the pages
    before; [msg] is the text of the exception. *)
Inductive faults (pdf_path : str) (msg : str) : Prop :=
| fault_open :
    pdfplumber_open pdf_path = inl msg -> faults pdf_path msg
| fault_pages (pdf : PDF) :
    pdfplumber_open pdf_path = inr pdf ->
    pdf_pages pdf = inl msg -> faults pdf_path msg
| fault_detection (pdf : PDF) (before : list Page) (page : Page) (after : list Page) :
    pdfplumber_open pdf_path = inr pdf ->
    pdf_pages pdf = inr (before ++ page :: after) ->
    Forall (fun p => exists tabs, page_extract_tables p = inr tabs) before ->
    page_extract_tables page = inl msg -> faults pdf_path msg.

(** All that pdfplumber says of the document at [pdf_path]: whether it
    opens, whether its pages can be read, and for each page in order what
    detection returns. *)
Definition document_view (pdf_path : str) : str + (str + list (str + list raw_table)) :=
  match pdfplumber_open pdf_path with
  | inl msg => inl msg
  | inr pdf =>
      inr match pdf_pages pdf with
          | inl msg => inl msg
          | inr pages => inr (map page_extract_tables pages)
          end
  end.

End Vocabulary.

(** ** A pdfplumber over known files *)

(** A page is its text and what detection returns on it; a file opens to a
    document whose pages can be read, to one whose pages cannot, or does not
    open at all. *)
Definition FilePage : Type := str * (str + list raw_table).
Definition FileDocument : Type := str + list FilePage.

Definition file_system (files : str -> str + FileDocument) : PdfPlumber :=
  {| PDF := FileDocument;
     Page := FilePage;
     pdfplumber_open := files;
     pdf_pages := fun pdf => pdf;
     page_extract_tables := fun page => snd page |}.

(** The one file [name], holding [doc]. *)
Definition one_file (name : str) (doc : FileDocument) (path : str) : str + FileDocument :=
  if eqb path name then inr doc
  else inl (lit "[Errno 2] No such file or directory").

Definition plain_page (tabs : list raw_table) : FilePage := ([], inr tabs).

Definition sample_path : str := lit "report.pdf".

Definition script_name : str := lit "pdfTableExtractor.py".

Definition cellX : str := lit "X".
Definition cellY : str := lit "Y".

Definition cellName : str := lit "Name".
Definition cellAge : str := lit "Age".
Definition cellAl : str := lit "Al".
Definition cell30 : str := lit "30".

(** One page, one table: the row [X, Y] and a row of blanks. *)
Definition degenerate_table : raw_table :=
  [[Some (lit " X"); Some (lit "Y ")]; [None; Some (lit "  ")]].

Definition degenerate_lib : PdfPlumber :=
  file_system (one_file sample_path (inr [plain_page [degenerate_table]])).

(** Two pages, a table on the second: a header row, a row of blanks and a
    data row. *)
Definition people_table : raw_table :=
  [[Some (lit "Name"); Some (lit "Age")]; [None; Some []]; [Some (lit "Al"); Some (lit "30")]].

Definition people_lib : PdfPlumber :=
  file_system (one_file sample_path (inr [plain_page []; plain_page [people_table]])).

(** The document of [people_lib] with other text on its pages. *)
Definition people_lib_retyped : PdfPlumber :=
  file_system (one_file sample_path
                 (inr [(lit "Staff list", inr []); (lit "page 2", inr [people_table])])).

(** One page with one table, whose only row has an absent cell and a cell
    of spaces. *)
Definition blank_table : raw_table := [[None; Some (lit "   ")]].

(** Three pages, no table on any. *)
Definition text_only_lib : PdfPlumber :=
  file_system (one_file sample_path (inr [plain_page []; plain_page []; plain_page []])).

(** The first page has a table, detection fails on the second. *)
Definition broken_lib : PdfPlumber :=
  file_system (one_file sample_path
                 (inr [plain_page [people_table]; ([], inl (lit "Unexpected EOF"))])).

(** ** Further vocabulary *)

(** A printable ASCII character: from the space to the tilde. *)
Definition printable (c : codepoint) : Prop := (32 <= c <= 126)%N.

(** A character that [strip] keeps. *)
Definition visible (c : codepoint) : bool := negb (isspace c).

(** The rows of the result fed back as a raw table: every cell present. *)
Definition as_raw_table (cleaned : list (list str)) : raw_table :=
  map (map (@Some str)) cleaned.


Section JsonInduction.

Variable P : json -> Prop.
Hypothesis HNull : P JNull.
Hypothesis HBool : forall b, P (JBool b).
Hypothesis HInt : forall z, P (JInt z).
Hypothesis HStr : forall s, P (JStr s).
Hypothesis HList : forall l, Forall P l -> P (JList l).
Hypothesis HDict : forall kv, Forall (fun item => P (snd item)) kv -> P (JDict kv).

(** Induction on a JSON value, with the hypothesis for every element of a
    list and every value of a dictionary. *)
Fixpoint json_induction (v : json) : P v :=
  match v with
  | JNull => HNull
  | JBool b => HBool b
  | JInt z => HInt z
  | JStr s => HStr s
  | JList l =>
      HList l
        ((fix elements (l : list json) : Forall P l :=
            match l with
            | [] => Forall_nil P
            | x :: rest => Forall_cons x (json_induction x) (elements rest)
            end) l)
  | JDict kv =>
      HDict kv
        ((fix items (kv : list (str * json)) : Forall (fun item => P (snd item)) kv :=
            match kv with
            | [] => Forall_nil _
            | item :: rest =>
                Forall_cons item (json_induction (snd item)) (items rest)
            end) kv)
  end.

End JsonInduction.

(** * Properties *)

(** ** Trimming *)

Lemma lstrip_head (s : str) :
  match lstrip s with
  | [] => True
  | c :: _ => isspace c = false
  end.
Proof.
  induction s as [|c s IH]; simpl; [exact I|].
  destruct (isspace c) eqn:E; [exact IH | exact E].
Qed.

Lemma lstrip_fixed (c : codepoint) (s : str) :
  isspace c = false -> lstrip (c :: s) = c :: s.
Proof. intros E; simpl; now rewrite E. Qed.

Lemma lstrip_app_nonspace (s : str) (c : codepoint) (s' : str) :
  isspace c = false -> lstrip (s ++ c :: s') = lstrip (s ++ [c]) ++ s'.
Proof.
  intros E; induction s as [|d s IH]; simpl.
  - now rewrite E.
  - destruct (isspace d); [exact IH|].
    simpl; now rewrite <- app_assoc.
Qed.

Lemma lstrip_idempotent (s : str) : lstrip (lstrip s) = lstrip s.
Proof.
  pose proof (lstrip_head s) as H.
  destruct (lstrip s) as [|c r]; [reflexivity|].
  now apply lstrip_fixed.
Qed.

Lemma rstrip_idempotent (s : str) : rstrip (rstrip s) = rstrip s.
Proof.
  unfold rstrip; now rewrite rev_involutive, lstrip_idempotent.
Qed.

(** Trimming the right end keeps a left end that is already trimmed. *)
Lemma rstrip_keeps_head (c : codepoint) (s : str) :
  isspace c = false -> exists r, rstrip (c :: s) = c :: r.
Proof.
  intros E; unfold rstrip; simpl rev.
  pose proof (lstrip_app_nonspace (rev s) c [] E) as H.
  rewrite app_nil_r in H.
  assert (exists u, lstrip (rev s ++ [c]) = u ++ [c]) as [u Hu].
  { clear H; induction (rev s) as [|d l IH]; simpl.
    - rewrite E; now exists [].
    - destruct (isspace d); [exact IH|].
      now exists (d :: l). }
  rewrite Hu, rev_app_distr; simpl.
  now exists (rev u).
Qed.

Lemma strip_idempotent (s : str) : strip (strip s) = strip s.
Proof.
  unfold strip.
  pose proof (lstrip_head s) as H.
  destruct (lstrip s) as [|c r] eqn:L; [reflexivity|].
  destruct (rstrip_keeps_head c r H) as [u Hu].
  rewrite Hu, (lstrip_fixed c u H), <- Hu.
  apply rstrip_idempotent.
Qed.

Lemma lstrip_split (s : str) :
  exists pre, s = pre ++ lstrip s /\ forallb isspace pre = true.
Proof.
  induction s as [|c s (pre & E & Hpre)]; simpl.
  - now exists [].
  - destruct (isspace c) eqn:Hc.
    + exists (c :: pre); simpl; rewrite Hc, Hpre; split; [now f_equal | reflexivity].
    + now exists [].
Qed.

Lemma rstrip_split (s : str) :
  exists post, s = rstrip s ++ post /\ forallb isspace post = true.
Proof.
  destruct (lstrip_split (rev s)) as (pre & E & Hpre).
  exists (rev pre); split.
  - unfold rstrip; rewrite <- rev_app_distr, <- E; now rewrite rev_involutive.
  - apply forallb_forall; intros c Hc; apply in_rev in Hc.
    now apply (proj1 (forallb_forall isspace pre) Hpre).
Qed.

Lemma strip_trimmed (s : str) : trimmed (strip s).
Proof.
  unfold trimmed, strip; split.
  - pose proof (lstrip_head s) as H.
    destruct (lstrip s) as [|c r]; [exact I|].
    destruct (rstrip_keeps_head c r H) as [u ->]; exact H.
  - unfold rstrip; rewrite rev_involutive; apply lstrip_head.
Qed.

(** [strip] removes a run of whitespace at each end, and all of it. *)
Lemma strip_trims (s : str) :
  exists pre post,
    s = pre ++ strip s ++ post /\
    forallb isspace pre = true /\ forallb isspace post = true /\
    trimmed (strip s).
Proof.
  destruct (lstrip_split s) as (pre & E & Hpre).
  destruct (rstrip_split (lstrip s)) as (post & E' & Hpost).
  exists pre, post.
  split; [|split; [exact Hpre | split; [exact Hpost | apply strip_trimmed]]].
  unfold strip; now rewrite <- E', <- E.
Qed.

(** ** Cleaning cells and rows *)

Lemma clean_cell_absent : clean_cell None = [].
Proof. reflexivity. Qed.

Lemma clean_cell_present (s : str) : clean_cell (Some s) = strip s.
Proof. destruct s; reflexivity. Qed.

Lemma clean_cell_trimmed (cell : raw_cell) : strip (clean_cell cell) = clean_cell cell.
Proof.
  destruct cell as [s|]; [|reflexivity].
  rewrite clean_cell_present; apply strip_idempotent.
Qed.

Lemma any_true (l : list str) : any l = true <-> exists c, In c l /\ c <> [].
Proof.
  unfold any; rewrite existsb_exists; split; intros (c & Hin & Hc); exists c; split; auto.
  - destruct c; [discriminate | congruence].
  - destruct c; [congruence | reflexivity].
Qed.

Lemma cleaned_rows_fold (table : raw_table) (acc : list (list str)) :
  fold_left cleaned_rows_step table acc = acc ++ filter any (map cleaned_row table).
Proof.
  revert acc; induction table as [|row table IH]; intros acc; simpl.
  - now rewrite app_nil_r.
  - rewrite IH; unfold cleaned_rows_step.
    destruct (any (cleaned_row row)); [|reflexivity].
    now rewrite <- app_assoc.
Qed.

(** The loop keeps, in order, the cleaned rows that have a non-empty cell. *)
Lemma cleaned_rows_filter (table : raw_table) :
  cleaned_rows table = filter any (map cleaned_row table).
Proof. unfold cleaned_rows; now rewrite cleaned_rows_fold. Qed.

Lemma cleaned_rows_In (table : raw_table) (row : list str) :
  In row (cleaned_rows table) <->
  exists raw, In raw table /\ row = cleaned_row raw /\ any row = true.
Proof.
  rewrite cleaned_rows_filter, filter_In, in_map_iff; split.
  - intros [(raw & E & Hin) Hany]; exists raw; auto.
  - intros (raw & Hin & E & Hany); split; [exists raw|]; auto.
Qed.

(** ** The loops of [extract_tables] in closed form *)

Lemma len_cons {A} (x : A) (l : list A) : len (x :: l) = len l + 1.
Proof. unfold len; simpl length; lia. Qed.

Lemma len_nonneg {A} (l : list A) : 0 <= len l.
Proof. unfold len; lia. Qed.

Lemma append_table_emitted (page_num : Z) (results : Results) (table : raw_table) :
  append_table page_num results table =
  mkResults (tables results ++ emitted page_num table) (has_tables results) (page_count results).
Proof.
  unfold append_table, emitted, tables_append.
  destruct (cleaned_rows table) as [|first [|second rest]].
  - rewrite app_nil_r; now destruct results.
  - reflexivity.
  - replace (1 <? len (first :: second :: rest)) with true; [reflexivity|].
    symmetry; apply Z.ltb_lt; rewrite !len_cons.
    pose proof (len_nonneg rest); lia.
Qed.

Lemma fold_append_table (page_num : Z) (tabs : list raw_table) (results : Results) :
  fold_left (append_table page_num) tabs results =
  mkResults (tables results ++ flat_map (emitted page_num) tabs)
            (has_tables results) (page_count results).
Proof.
  revert results; induction tabs as [|table tabs IH]; intros results; simpl.
  - rewrite app_nil_r; now destruct results.
  - rewrite IH, append_table_emitted; simpl; now rewrite <- app_assoc.
Qed.

Lemma scan_tables_closed (page_num : Z) (results : Results) (tabs : list raw_table) :
  scan_tables page_num results tabs =
  mkResults (tables results ++ flat_map (emitted page_num) tabs)
            (has_tables results || nonempty tabs) (page_count results).
Proof.
  unfold scan_tables; destruct tabs as [|table tabs].
  - simpl; rewrite app_nil_r, orb_false_r; now destruct results.
  - rewrite fold_append_table; simpl; now rewrite orb_true_r.
Qed.

Section Scan.

Context {lib : PdfPlumber}.

Lemma for_each_scan_page (pages : list Page) (start : Z) (results : Results) :
  for_each (enumerate_from start pages) scan_page results =
  ([], match detections pages with
       | inl msg => inl (PyException msg)
       | inr detected =>
           inr (mkResults (tables results ++ emitted_pages start detected)
                          (has_tables results || existsb nonempty detected)
                          (page_count results))
       end).
Proof.
  revert start results; induction pages as [|page pages IH]; intros start results; simpl.
  - rewrite app_nil_r, orb_false_r; now destruct results.
  - destruct (page_extract_tables page) as [msg|tabs]; simpl; [reflexivity|].
    rewrite IH, scan_tables_closed; simpl.
    destruct (detections pages) as [msg|detected]; [reflexivity|].
    simpl; now rewrite <- app_assoc, orb_assoc.
Qed.

(** Every way [extract_tables] can go. *)
Lemma extract_tables_cases (pdf_path : str) :
  extract_tables pdf_path =
  match pdfplumber_open pdf_path with
  | inl msg => ([Open pdf_path], inl (PyException msg))
  | inr pdf =>
      ([Open pdf_path; Close],
       match pdf_pages pdf with
       | inl msg => inl (PyException msg)
       | inr pages =>
           match detections pages with
           | inl msg => inl (PyException msg)
           | inr detected =>
               inr (mkResults (emitted_pages 0 detected)
                              (existsb nonempty detected) (len pages))
           end
       end)
  end.
Proof.
  unfold extract_tables, with_open.
  destruct (pdfplumber_open pdf_path) as [msg|pdf]; simpl; [reflexivity|].
  destruct (pdf_pages pdf) as [msg|pages]; simpl; [reflexivity|].
  unfold enumerate; rewrite for_each_scan_page; simpl.
  now destruct (detections pages).
Qed.

End Scan.

Lemma emitted_pages_In (tr : TableRecord) (detected : list (list raw_table)) (start : Z) :
  In tr (emitted_pages start detected) <->
  exists i tabs table,
    nth_error detected i = Some tabs /\ In table tabs /\
    In tr (emitted (start + Z.of_nat i) table).
Proof.
  revert start; induction detected as [|tabs0 detected IH]; intros start; simpl.
  - split; [tauto|]. intros (i & tabs & table & H & _); destruct i; discriminate.
  - rewrite in_app_iff, in_flat_map, IH; split.
    + intros [(table & Hin & Hem) | (i & tabs & table & Hn & Hin & Hem)].
      * exists 0%nat, tabs0, table; simpl; rewrite Z.add_0_r; auto.
      * exists (S i), tabs, table; simpl nth_error.
        replace (start + Z.of_nat (S i)) with (start + 1 + Z.of_nat i) by lia; auto.
    + intros (i & tabs & table & Hn & Hin & Hem); destruct i as [|i]; simpl in Hn.
      * injection Hn as <-; rewrite Z.add_0_r in Hem; left; eauto.
      * right; exists i, tabs, table.
        replace (start + 1 + Z.of_nat i) with (start + Z.of_nat (S i)) by lia; auto.
Qed.

Section Detected.

Context {lib : PdfPlumber}.

Lemma detections_nth_error (pages : list Page) (detected : list (list raw_table)) :
  detections pages = inr detected ->
  forall i tabs,
    nth_error detected i = Some tabs <->
    exists page, nth_error pages i = Some page /\ page_extract_tables page = inr tabs.
Proof.
  revert detected; induction pages as [|page pages IH]; intros detected; simpl.
  - intros [= <-] i tabs; split.
    + destruct i; discriminate.
    + intros (p & H & _); destruct i; discriminate.
  - destruct (page_extract_tables page) as [msg|tabs0] eqn:E; [discriminate|].
    destruct (detections pages) as [msg|rest]; [discriminate|].
    intros [= <-] i tabs; destruct i as [|i]; simpl.
    + split.
      * intros [= <-]; eauto.
      * intros (p & [= <-] & H); congruence.
    + now apply IH.
Qed.

(** A run of [extract_tables] that returns has opened and closed the
    document, every page was scanned, and the result is the closed
    form. *)
Lemma extract_tables_returns (pdf_path : str) (t : trace) (res : Results) :
  extract_tables pdf_path = (t, inr res) ->
  exists pdf pages detected,
    pdfplumber_open pdf_path = inr pdf /\ pdf_pages pdf = inr pages /\
    detections pages = inr detected /\
    t = [Open pdf_path; Close] /\
    res = mkResults (emitted_pages 0 detected) (existsb nonempty detected) (len pages).
Proof.
  rewrite extract_tables_cases.
  destruct (pdfplumber_open pdf_path) as [msg|pdf]; [discriminate|].
  destruct (pdf_pages pdf) as [msg|pages] eqn:Ep; [discriminate|].
  destruct (detections pages) as [msg|detected] eqn:Ed; [discriminate|].
  intros [= <- <-]; exists pdf, pages, detected; auto.
Qed.

(** The dictionaries of the result are those emitted for the tables
    detected on the pages, with the page's 0-based index. *)
Lemma extract_tables_In (pdf_path : str) (t : trace) (res : Results) (tr : TableRecord) :
  extract_tables pdf_path = (t, inr res) ->
  (In tr (tables res) <->
   exists i table, detected_on pdf_path i table /\ In tr (emitted (Z.of_nat i) table)).
Proof.
  intros H; destruct (extract_tables_returns _ _ _ H) as (pdf & pages & detected & Ho & Hp & Hd & _ & ->).
  simpl tables; rewrite emitted_pages_In; split.
  - intros (i & tabs & table & Hn & Hin & Hem).
    apply (detections_nth_error _ _ Hd) in Hn as (page & Hn & Hx).
    exists i, table; split; [|exact Hem].
    exists pdf, pages, page, tabs; auto.
  - intros (i & table & (pdf' & pages' & page & tabs & Ho' & Hp' & Hn & Hx & Hin) & Hem).
    rewrite Ho in Ho'; injection Ho' as <-.
    rewrite Hp in Hp'; injection Hp' as <-.
    exists i, tabs, table; repeat split; auto.
    apply (detections_nth_error _ _ Hd); eauto.
Qed.

End Detected.

(** ** Headers and rows *)

Section HeadersAndRows.

Context {lib : PdfPlumber}.

Lemma extract_tables_emits (pdf_path : str) (t : trace) (res : Results)
      (i : nat) (table : raw_table) (tr : TableRecord) :
  extract_tables pdf_path = (t, inr res) ->
  detected_on pdf_path i table ->
  emitted (Z.of_nat i) table = [tr] ->
  In tr (tables res).
Proof.
  intros H Hd He; apply (extract_tables_In pdf_path t res tr H).
  exists i, table; rewrite He; simpl; auto.
Qed.

(** C1: when exactly one row of a detected table is retained, the loop
    body appends a dictionary whose headers are that row and whose rows are
    [cleaned_rows] itself, the one-element list of that row; the
    dictionary, with the 1-based number of the page, is in the result. *)
Theorem single_row_table (pdf_path : str) (t : trace) (res : Results)
        (i : nat) (table : raw_table) (row : list str) :
  extract_tables pdf_path = (t, inr res) ->
  detected_on pdf_path i table ->
  cleaned_rows table = [row] ->
  (forall results,
      append_table (Z.of_nat i) results table =
      tables_append results
        {| page := Z.of_nat i + 1; headers := row; rows := cleaned_rows table |}) /\
  In {| page := Z.of_nat i + 1; headers := row; rows := [row] |} (tables res).
Proof.
  intros H Hd Hc; split.
  - intros results; unfold append_table; rewrite Hc; reflexivity.
  - apply (extract_tables_emits pdf_path t res i table _ H Hd).
    unfold emitted; now rewrite Hc.
Qed.

End HeadersAndRows.

Lemma degenerate_detected : @detected_on degenerate_lib sample_path 0 degenerate_table.
Proof.
  exists (inr [plain_page [degenerate_table]]), [plain_page [degenerate_table]],
         (plain_page [degenerate_table]), [degenerate_table].
  repeat split; simpl; auto.
Defined.

Lemma single_row_table_witness :
  @extract_tables degenerate_lib sample_path
  = ([Open sample_path; Close], inr (mkResults [mkTable 1 [cellX; cellY] [[cellX; cellY]]] true 1))
  /\ cleaned_rows degenerate_table = [[cellX; cellY]]
  /\ In (mkTable 1 [cellX; cellY] [[cellX; cellY]])
        (tables (mkResults [mkTable 1 [cellX; cellY] [[cellX; cellY]]] true 1)).
Proof.
  split; [reflexivity|]; split; [reflexivity|].
  exact (proj2 (@single_row_table degenerate_lib sample_path _ _ 0%nat degenerate_table
                  [cellX; cellY] eq_refl degenerate_detected eq_refl)).
Defined.

Section Scenarios.

Context {lib : PdfPlumber}.

(** C2, as amended: when the one retained row of a detected table is
    [X, Y], the dictionary emitted for it has, in the JSON output,
    "headers" [X, Y] and "rows" [[X, Y]]: a list holding that one row. *)
Theorem single_row_scenario (pdf_path : str) (t : trace) (res : Results)
        (i : nat) (table : raw_table) :
  extract_tables pdf_path = (t, inr res) ->
  detected_on pdf_path i table ->
  cleaned_rows table = [[cellX; cellY]] ->
  exists tr,
    In tr (tables res) /\ page tr = Z.of_nat i + 1 /\
    get (lit "headers") (TableRecord_json tr) = Some (JList [JStr cellX; JStr cellY]) /\
    get (lit "rows") (TableRecord_json tr) = Some (JList [JList [JStr cellX; JStr cellY]]).
Proof.
  intros H Hd Hc.
  exists (mkTable (Z.of_nat i + 1) [cellX; cellY] [[cellX; cellY]]); split.
  - apply (extract_tables_emits pdf_path t res i table _ H Hd).
    unfold emitted; now rewrite Hc.
  - repeat split.
Qed.

(** C3: when more than one row of a detected table is retained, the
    result holds a dictionary with the 1-based number of the page, the first
    retained row as headers and the other retained rows, in the order of the
    raw table, as rows.  In particular a document of two pages whose second
    page has one table, cleaned to [[Name, Age], [Al, 30]], gives exactly
    that one dictionary with page 2, [has_tables] true and [page_count]
    2. *)
Theorem multi_row_table :
  (forall (pdf_path : str) (t : trace) (res : Results) (i : nat) (table : raw_table)
          (first second : list str) (rest : list (list str)),
      extract_tables pdf_path = (t, inr res) ->
      detected_on pdf_path i table ->
      cleaned_rows table = first :: second :: rest ->
      filter any (map cleaned_row table) = first :: second :: rest /\
      In {| page := Z.of_nat i + 1; headers := first; rows := second :: rest |}
         (tables res)) /\
  (forall (pdf_path : str) (pdf : PDF) (page1 page2 : Page) (table : raw_table),
      pdfplumber_open pdf_path = inr pdf ->
      pdf_pages pdf = inr [page1; page2] ->
      page_extract_tables page1 = inr [] ->
      page_extract_tables page2 = inr [table] ->
      cleaned_rows table = [[cellName; cellAge]; [cellAl; cell30]] ->
      extract_tables pdf_path =
      ([Open pdf_path; Close],
       inr {| tables := [ {| page := 2; headers := [cellName; cellAge];
                             rows := [[cellAl; cell30]] |} ];
              has_tables := true;
              page_count := 2 |})).
Proof.
  split.
  - intros pdf_path t res i table first second rest H Hd Hc; split.
    + now rewrite <- cleaned_rows_filter.
    + apply (extract_tables_emits pdf_path t res i table _ H Hd).
      unfold emitted; now rewrite Hc.
  - intros pdf_path pdf page1 page2 table Ho Hp H1 H2 Hc.
    rewrite extract_tables_cases, Ho, Hp; simpl.
    rewrite H1, H2; simpl; unfold emitted; rewrite Hc; reflexivity.
Qed.

End Scenarios.

(** C2 as the scenario words it fails on the code: on the document of
    [degenerate_lib] the run returns one dictionary, whose "headers" are
    [X, Y] and whose "rows" are not the flat list [X, Y]. *)
Lemma single_row_scenario_rows_not_flat :
  exists t res tr,
    @extract_tables degenerate_lib sample_path = (t, inr res) /\
    cleaned_rows degenerate_table = [[cellX; cellY]] /\
    tables res = [tr] /\
    get (lit "headers") (TableRecord_json tr) = Some (JList [JStr cellX; JStr cellY]) /\
    get (lit "rows") (TableRecord_json tr) <> Some (JList [JStr cellX; JStr cellY]).
Proof.
  exists [Open sample_path; Close],
         (mkResults [mkTable 1 [cellX; cellY] [[cellX; cellY]]] true 1),
         (mkTable 1 [cellX; cellY] [[cellX; cellY]]).
  repeat split; discriminate.
Qed.

Lemma single_row_scenario_witness :
  exists tr,
    In tr (tables (mkResults [mkTable 1 [cellX; cellY] [[cellX; cellY]]] true 1)) /\
    page tr = 1 /\
    get (lit "headers") (TableRecord_json tr) = Some (JList [JStr cellX; JStr cellY]) /\
    get (lit "rows") (TableRecord_json tr) = Some (JList [JList [JStr cellX; JStr cellY]]).
Proof.
  exact (@single_row_scenario degenerate_lib sample_path _ _ 0%nat degenerate_table
           eq_refl degenerate_detected eq_refl).
Defined.

Lemma people_detected : @detected_on people_lib sample_path 1 people_table.
Proof.
  exists (inr [plain_page []; plain_page [people_table]]),
         [plain_page []; plain_page [people_table]],
         (plain_page [people_table]), [people_table].
  repeat split; simpl; auto.
Defined.

Lemma multi_row_table_witness :
  In (mkTable 2 [cellName; cellAge] [[cellAl; cell30]])
     (tables (mkResults [mkTable 2 [cellName; cellAge] [[cellAl; cell30]]] true 2)) /\
  @extract_tables people_lib sample_path =
  ([Open sample_path; Close],
   inr (mkResults [mkTable 2 [cellName; cellAge] [[cellAl; cell30]]] true 2)).
Proof.
  split.
  - exact (proj2 (proj1 (@multi_row_table people_lib) sample_path _ _ 1%nat people_table
                    _ _ _ eq_refl people_detected eq_refl)).
  - exact (proj2 (@multi_row_table people_lib) sample_path _ _ _ people_table
             eq_refl eq_refl eq_refl eq_refl eq_refl).
Defined.

(** ** Cells and retained rows *)

Lemma emitted_rows (page_num : Z) (table : raw_table) (tr : TableRecord) :
  In tr (emitted page_num table) ->
  page tr = page_num + 1 /\
  forall row, In row (headers tr :: rows tr) -> In row (cleaned_rows table).
Proof.
  unfold emitted; destruct (cleaned_rows table) as [|first [|second rest]]; simpl.
  - tauto.
  - intros [<-|[]]; simpl; intuition.
  - intros [<-|[]]; simpl; intuition.
Qed.

Lemma cleaned_row_cells (raw : raw_row) :
  cleaned_row raw =
  map (fun cell => match cell with None => [] | Some s => strip s end) raw.
Proof.
  unfold cleaned_row; apply map_ext; intros [s|]; [apply clean_cell_present | reflexivity].
Qed.

Lemma blank_table_cleaned (table : raw_table) :
  Forall (fun raw => any (cleaned_row raw) = false) table -> cleaned_rows table = [].
Proof.
  rewrite cleaned_rows_filter; induction 1 as [|raw table Hraw _ IH]; simpl; [reflexivity|].
  now rewrite Hraw.
Qed.

Section Cells.

Context {lib : PdfPlumber}.

(** Every row of the result is the cleaned form of a raw row of a table
    detected on the page the dictionary names, and has a truthy cell. *)
Lemma result_row_origin (pdf_path : str) (t : trace) (res : Results)
      (tr : TableRecord) (row : list str) :
  extract_tables pdf_path = (t, inr res) ->
  In tr (tables res) ->
  In row (headers tr :: rows tr) ->
  exists i table raw,
    detected_on pdf_path i table /\ page tr = Z.of_nat i + 1 /\
    In raw table /\ row = cleaned_row raw /\ any row = true.
Proof.
  intros H Htr Hrow.
  apply (extract_tables_In pdf_path t res tr H) in Htr as (i & table & Hd & Hem).
  apply emitted_rows in Hem as [Hp Hrows].
  apply Hrows, cleaned_rows_In in Hrow as (raw & Hraw & E & Hany).
  exists i, table, raw; auto.
Qed.

(** C4: every row of the output, headers included, comes from a raw row
    of a detected table cell by cell: an absent cell gives the empty
    string, a present cell [s] gives [strip s], which is [s] without the
    whitespace at its two ends; in the JSON output every cell is a
    string. *)
Theorem cells_are_strings (pdf_path : str) (t : trace) (res : Results)
        (tr : TableRecord) (row : list str) :
  extract_tables pdf_path = (t, inr res) ->
  In tr (tables res) ->
  In row (headers tr :: rows tr) ->
  exists i table raw,
    detected_on pdf_path i table /\ page tr = Z.of_nat i + 1 /\ In raw table /\
    row = map (fun cell => match cell with None => [] | Some s => strip s end) raw /\
    row_json row =
    JList (map (fun cell => JStr (match cell with None => [] | Some s => strip s end)) raw) /\
    forall s, exists pre post,
        s = pre ++ strip s ++ post /\
        forallb isspace pre = true /\ forallb isspace post = true /\
        trimmed (strip s).
Proof.
  intros H Htr Hrow.
  destruct (result_row_origin pdf_path t res tr row H Htr Hrow)
    as (i & table & raw & Hd & Hp & Hraw & E & _).
  exists i, table, raw.
  split; [exact Hd|]; split; [exact Hp|]; split; [exact Hraw|]; split; [|split].
  - rewrite E; apply cleaned_row_cells.
  - rewrite E, cleaned_row_cells; unfold row_json; now rewrite map_map.
  - apply strip_trims.
Qed.

(** C5: every row of the output, headers included, has a cell that is
    not empty, before and after trimming; and a table whose cleaned rows
    are all without a truthy cell leaves the result as it was. *)
Theorem no_blank_rows :
  (forall (pdf_path : str) (t : trace) (res : Results) (tr : TableRecord) (row : list str),
      extract_tables pdf_path = (t, inr res) ->
      In tr (tables res) ->
      In row (headers tr :: rows tr) ->
      exists c, In c row /\ c <> [] /\ strip c <> []) /\
  (forall (page_num : Z) (results : Results) (table : raw_table),
      Forall (fun raw => any (cleaned_row raw) = false) table ->
      append_table page_num results table = results).
Proof.
  split.
  - intros pdf_path t res tr row H Htr Hrow.
    destruct (result_row_origin pdf_path t res tr row H Htr Hrow)
      as (i & table & raw & _ & _ & _ & E & Hany).
    apply any_true in Hany as (c & Hc & Hne).
    exists c; repeat split; auto.
    rewrite E in Hc; apply in_map_iff in Hc as (cell & <- & _).
    now rewrite clean_cell_trimmed.
  - intros page_num results table Hblank.
    unfold append_table; now rewrite (blank_table_cleaned table Hblank).
Qed.

End Cells.

Lemma people_result_row :
  In [cellAl; cell30]
     (headers (mkTable 2 [cellName; cellAge] [[cellAl; cell30]])
      :: rows (mkTable 2 [cellName; cellAge] [[cellAl; cell30]])).
Proof. simpl; auto. Defined.

Lemma cells_are_strings_witness :
  exists i table raw,
    @detected_on people_lib sample_path i table /\
    page (mkTable 2 [cellName; cellAge] [[cellAl; cell30]]) = Z.of_nat i + 1 /\
    In raw table /\
    [cellAl; cell30] = map (fun cell => match cell with None => [] | Some s => strip s end) raw /\
    row_json [cellAl; cell30] =
    JList (map (fun cell => JStr (match cell with None => [] | Some s => strip s end)) raw) /\
    forall s, exists pre post,
        s = pre ++ strip s ++ post /\
        forallb isspace pre = true /\ forallb isspace post = true /\
        trimmed (strip s).
Proof.
  exact (@cells_are_strings people_lib sample_path _
           (mkResults [mkTable 2 [cellName; cellAge] [[cellAl; cell30]]] true 2)
           (mkTable 2 [cellName; cellAge] [[cellAl; cell30]]) [cellAl; cell30]
           eq_refl (or_introl eq_refl) people_result_row).
Defined.

Lemma no_blank_rows_witness :
  (exists c, In c [cellAl; cell30] /\ c <> [] /\ strip c <> []) /\
  append_table 0 (mkResults [] true 1) [[None; Some (lit "  ")]; []] = mkResults [] true 1.
Proof.
  split.
  - exact (proj1 (@no_blank_rows people_lib) sample_path _
             (mkResults [mkTable 2 [cellName; cellAge] [[cellAl; cell30]]] true 2)
             (mkTable 2 [cellName; cellAge] [[cellAl; cell30]]) [cellAl; cell30]
             eq_refl (or_introl eq_refl) people_result_row).
  - apply (proj2 (@no_blank_rows people_lib)).
    repeat constructor.
Defined.

(** ** Documents without tables, and tables without rows *)

Section NoTables.

Context {lib : PdfPlumber}.

Lemma detections_none (pages : list Page) :
  Forall (fun page => page_extract_tables page = inr []) pages ->
  detections pages = inr (repeat [] (length pages)).
Proof.
  induction 1 as [|page pages Hpage _ IH]; simpl; [reflexivity|].
  now rewrite Hpage, IH.
Qed.

Lemma emitted_pages_none (start : Z) (n : nat) : emitted_pages start (repeat [] n) = [].
Proof. revert start; induction n as [|n IH]; intros start; simpl; auto. Qed.

Lemma nonempty_none (n : nat) : existsb nonempty (repeat (@nil raw_table) n) = false.
Proof. induction n; simpl; auto. Qed.

(** C6: when detection returns no table on any page, [extract_tables]
    returns no dictionary, [has_tables] false and the number of pages of
    the document as [page_count]. *)
Theorem no_tables_detected (pdf_path : str) (pdf : PDF) (pages : list Page) :
  pdfplumber_open pdf_path = inr pdf ->
  pdf_pages pdf = inr pages ->
  Forall (fun page => page_extract_tables page = inr []) pages ->
  extract_tables pdf_path =
  ([Open pdf_path; Close],
   inr {| tables := []; has_tables := false; page_count := Z.of_nat (length pages) |}).
Proof.
  intros Ho Hp Hnone.
  rewrite extract_tables_cases, Ho, Hp, (detections_none pages Hnone).
  now rewrite emitted_pages_none, nonempty_none.
Qed.

End NoTables.

Lemma no_tables_detected_witness :
  @extract_tables text_only_lib sample_path =
  ([Open sample_path; Close], inr {| tables := []; has_tables := false; page_count := 3 |}).
Proof.
  apply (@no_tables_detected text_only_lib sample_path
           (inr [plain_page []; plain_page []; plain_page []])
           [plain_page []; plain_page []; plain_page []]);
    [reflexivity | reflexivity | repeat constructor].
Defined.

(** C7: there is a document on which the run returns [has_tables] true
    and no dictionary at all: a table was detected on a page, which sets
    [has_tables], and none of the rows of any detected table has a truthy
    cell once cleaned. *)
Theorem has_tables_without_tables :
  exists doc : list (list raw_table),
    (exists tabs, In tabs doc /\ tabs <> []) /\
    (forall tabs table raw,
        In tabs doc -> In table tabs -> In raw table -> any (cleaned_row raw) = false) /\
    exists t res,
      @extract_tables (file_system (one_file sample_path (inr (map plain_page doc))))
                      sample_path = (t, inr res) /\
      has_tables res = true /\ tables res = [].
Proof.
  exists [[blank_table]]; split; [|split].
  - exists [blank_table]; split; [left; reflexivity | discriminate].
  - intros tabs table raw [<-|[]] [<-|[]] [<-|[]]; reflexivity.
  - exists [Open sample_path; Close], (mkResults [] true 1); repeat split.
Qed.

(** ** The process: output and exit status *)

Lemma stdout_app (t t' : trace) : stdout (t ++ t') = stdout t ++ stdout t'.
Proof.
  induction t as [|ev t IH]; simpl; [reflexivity|].
  destruct ev; auto.
  rewrite IH; now rewrite <- !app_assoc.
Qed.

Lemma printed_app (t t' : trace) : printed (t ++ t') = printed t ++ printed t'.
Proof.
  induction t as [|ev t IH]; simpl; [reflexivity|].
  destruct ev; auto; simpl; now rewrite IH.
Qed.

Lemma dumps_error_json (msg : str) : dumps (error_json msg) = error_line msg.
Proof.
  unfold error_json, error_line; simpl.
  unfold encode_string; simpl; now rewrite <- !app_assoc.
Qed.

Section Process.

Context {lib : PdfPlumber}.

Lemma detections_fault (before : list Page) (page : Page) (after : list Page) (msg : str) :
  Forall (fun p => exists tabs, page_extract_tables p = inr tabs) before ->
  page_extract_tables page = inl msg ->
  detections (before ++ page :: after) = inl msg.
Proof.
  intros Hb Hp; induction Hb as [|p before [tabs Htabs] _ IH]; simpl.
  - now rewrite Hp.
  - now rewrite Htabs, IH.
Qed.

Lemma faults_raise (pdf_path msg : str) :
  faults pdf_path msg ->
  exists t, extract_tables pdf_path = (t, inl (PyException msg)) /\
            printed t = [] /\ opened t = [pdf_path].
Proof.
  rewrite extract_tables_cases.
  intros [Ho | pdf Ho Hp | pdf before page after Ho Hp Hb Hx]; rewrite Ho.
  - now exists [Open pdf_path].
  - rewrite Hp; now exists [Open pdf_path; Close].
  - rewrite Hp, (detections_fault before page after msg Hb Hx).
    now exists [Open pdf_path; Close].
Qed.

(** With a path argument, the run is the extraction followed by one
    [print], of the result or of the error. *)
Lemma run_with_path (argv : list str) :
  2 <= len argv ->
  run argv =
  match extract_tables (nth 1 argv []) with
  | (t, inr res) => mkOutcome (t ++ [Print (dumps (Results_json res))]) 0
  | (t, inl (PyException msg)) => mkOutcome (t ++ [Print (dumps (error_json msg))]) 1
  | (t, inl (SystemExit code)) => mkOutcome t code
  end.
Proof.
  intros Hlen; unfold run, main.
  replace (len argv <? 2) with false by (symmetry; apply Z.ltb_ge; exact Hlen).
  destruct (extract_tables (nth 1 argv [])) as [t [[msg|code]|res]]; reflexivity.
Qed.

(** C8: when opening or scanning the document named by the path
    argument raises a fault, the run prints one line, the object with the
    single field "error" holding the message, and nothing else, and exits
    with status 1. *)
Theorem fault_reported (argv : list str) (msg : str) :
  2 <= len argv ->
  faults (nth 1 argv []) msg ->
  printed (events (run argv)) = [dumps (error_json msg)] /\
  stdout (events (run argv)) = error_line msg ++ newline /\
  exit_status (run argv) = 1 /\
  exit_status (run argv) <> 0.
Proof.
  intros Hlen Hf; rewrite (run_with_path argv Hlen).
  destruct (faults_raise _ _ Hf) as (t & -> & Hpr & _); cbn [events exit_status].
  assert (stdout t = []) as Hs.
  { clear -Hpr; induction t as [|[p| |text] t IH]; simpl in *; auto; discriminate. }
  rewrite printed_app, stdout_app, Hpr, Hs; cbn [printed stdout app].
  rewrite dumps_error_json, app_nil_r.
  repeat split; discriminate.
Qed.

(** C9: without a path argument the run does one thing, printing the
    line [{"error": "PDF path required"}]; it exits with status 1 and opens
    no document. *)
Theorem path_required (argv : list str) :
  len argv < 2 ->
  events (run argv) = [Print path_required_line] /\
  stdout (events (run argv)) = path_required_line ++ newline /\
  exit_status (run argv) = 1 /\
  exit_status (run argv) <> 0 /\
  opened (events (run argv)) = [].
Proof.
  intros Hlen; unfold run, main.
  replace (len argv <? 2) with true by (symmetry; apply Z.ltb_lt; exact Hlen).
  repeat split; discriminate.
Qed.

End Process.

Lemma broken_faults : @faults broken_lib (nth 1 [script_name; sample_path] []) (lit "Unexpected EOF").
Proof.
  apply (@fault_detection broken_lib _ _
           (inr [plain_page [people_table]; ([], inl (lit "Unexpected EOF"))])
           [plain_page [people_table]] ([], inl (lit "Unexpected EOF")) []);
    try reflexivity.
  constructor; [|constructor].
  exists [people_table]; reflexivity.
Defined.

Lemma fault_reported_witness :
  printed (events (@run broken_lib [script_name; sample_path]))
  = [dumps (error_json (lit "Unexpected EOF"))] /\
  stdout (events (@run broken_lib [script_name; sample_path]))
  = error_line (lit "Unexpected EOF") ++ newline /\
  exit_status (@run broken_lib [script_name; sample_path]) = 1 /\
  exit_status (@run broken_lib [script_name; sample_path]) <> 0.
Proof.
  apply (@fault_reported broken_lib [script_name; sample_path] (lit "Unexpected EOF"));
    [vm_compute; discriminate | exact broken_faults].
Defined.

Lemma path_required_witness :
  events (@run people_lib [script_name]) = [Print path_required_line] /\
  stdout (events (@run people_lib [script_name])) = path_required_line ++ newline /\
  exit_status (@run people_lib [script_name]) = 1 /\
  exit_status (@run people_lib [script_name]) <> 0 /\
  opened (events (@run people_lib [script_name])) = [].
Proof.
  apply (@path_required people_lib [script_name]); reflexivity.
Defined.

(** ** Determinism *)

Section View.

Context {lib : PdfPlumber}.

Lemma detections_collect (pages : list Page) :
  detections pages = collect (map page_extract_tables pages).
Proof.
  induction pages as [|page pages IH]; simpl; [reflexivity|].
  destruct (page_extract_tables page); [reflexivity|].
  now rewrite IH.
Qed.

(** [extract_tables] reads the document through its view only. *)
Lemma extract_tables_view (pdf_path : str) :
  extract_tables pdf_path =
  match document_view pdf_path with
  | inl msg => ([Open pdf_path], inl (PyException msg))
  | inr (inl msg) => ([Open pdf_path; Close], inl (PyException msg))
  | inr (inr outcomes) =>
      ([Open pdf_path; Close],
       match collect outcomes with
       | inl msg => inl (PyException msg)
       | inr detected =>
           inr (mkResults (emitted_pages 0 detected) (existsb nonempty detected)
                          (len outcomes))
       end)
  end.
Proof.
  rewrite extract_tables_cases; unfold document_view.
  destruct (pdfplumber_open pdf_path) as [msg|pdf]; [reflexivity|].
  destruct (pdf_pages pdf) as [msg|pages]; [reflexivity|].
  rewrite detections_collect; unfold len; now rewrite length_map.
Qed.

End View.

(** C10: two runs, each with its own pdfplumber, on a document that shows
    both the same pages and the same detection outcomes, return the same
    result, do the same things and print the same text. *)
Theorem extraction_deterministic (lib1 lib2 : PdfPlumber) (argv : list str) :
  @document_view lib1 (nth 1 argv []) = @document_view lib2 (nth 1 argv []) ->
  @extract_tables lib1 (nth 1 argv []) = @extract_tables lib2 (nth 1 argv []) /\
  @run lib1 argv = @run lib2 argv /\
  stdout (events (@run lib1 argv)) = stdout (events (@run lib2 argv)).
Proof.
  intros Hview.
  assert (@extract_tables lib1 (nth 1 argv []) = @extract_tables lib2 (nth 1 argv [])) as Hx.
  { rewrite (@extract_tables_view lib1), (@extract_tables_view lib2), Hview; reflexivity. }
  assert (@run lib1 argv = @run lib2 argv) as Hrun.
  { unfold run, main; now rewrite Hx. }
  repeat split; auto; now rewrite Hrun.
Qed.

Lemma extraction_deterministic_witness :
  @extract_tables people_lib (nth 1 [script_name; sample_path] [])
  = @extract_tables people_lib_retyped (nth 1 [script_name; sample_path] []) /\
  @run people_lib [script_name; sample_path]
  = @run people_lib_retyped [script_name; sample_path] /\
  stdout (events (@run people_lib [script_name; sample_path]))
  = stdout (events (@run people_lib_retyped [script_name; sample_path])).
Proof.
  apply (extraction_deterministic people_lib people_lib_retyped [script_name; sample_path]).
  reflexivity.
Defined.


(** * Further properties of the script *)

(** ** The document handle and the process *)

Section Handle.

Context {lib : PdfPlumber}.

(** X1: [extract_tables] tries to open the one path it is given; a
    document that opened is closed once, whether the scan returns or
    raises, and nothing is closed when opening failed. *)
Theorem document_closed_once (pdf_path : str) :
  fst (extract_tables pdf_path) =
  match pdfplumber_open pdf_path with
  | inl _ => [Open pdf_path]
  | inr _ => [Open pdf_path; Close]
  end.
Proof.
  rewrite extract_tables_cases.
  now destruct (pdfplumber_open pdf_path).
Qed.

(** [extract_tables] prints nothing and never raises [SystemExit]. *)
Lemma extract_tables_quiet (pdf_path : str) :
  printed (fst (extract_tables pdf_path)) = [] /\
  stdout (fst (extract_tables pdf_path)) = [] /\
  forall code, snd (extract_tables pdf_path) <> inl (SystemExit code).
Proof.
  rewrite extract_tables_cases.
  destruct (pdfplumber_open pdf_path) as [msg|pdf]; simpl.
  - repeat split; discriminate.
  - repeat split; auto.
    intros code; destruct (pdf_pages pdf) as [msg|pages]; [discriminate|].
    destruct (detections pages); discriminate.
Qed.

(** X2: when a path is given and the extraction returns, the run opens and
    closes the document, prints the JSON text of the result as its one line
    and exits with status 0. *)
Theorem success_output (argv : list str) (t : trace) (res : Results) :
  2 <= len argv ->
  extract_tables (nth 1 argv []) = (t, inr res) ->
  events (run argv) =
  [Open (nth 1 argv []); Close; Print (dumps (Results_json res))] /\
  stdout (events (run argv)) = dumps (Results_json res) ++ newline /\
  exit_status (run argv) = 0.
Proof.
  intros Hlen H; rewrite (run_with_path argv Hlen), H; cbn [events exit_status].
  destruct (extract_tables_returns _ _ _ H) as (_ & _ & _ & _ & _ & _ & -> & _).
  cbn [app stdout]; now rewrite app_nil_r.
Qed.

(** X3: every run prints exactly one line; its exit status is 0 or 1, and
    is 0 exactly when a path was given and the extraction returned. *)
Theorem one_line_and_status (argv : list str) :
  (exists line,
      printed (events (run argv)) = [line] /\
      stdout (events (run argv)) = line ++ newline) /\
  (exit_status (run argv) = 0 \/ exit_status (run argv) = 1) /\
  (exit_status (run argv) = 0 <->
   2 <= len argv /\ exists t res, extract_tables (nth 1 argv []) = (t, inr res)).
Proof.
  destruct (Z.ltb_spec (len argv) 2) as [Hlt|Hge].
  - unfold run, main.
    replace (len argv <? 2) with true by (symmetry; apply Z.ltb_lt; exact Hlt).
    cbn; repeat split; try (now right); try discriminate.
    + eexists; split; reflexivity.
    + intros [Hge _]; lia.
  - rewrite (run_with_path argv Hge).
    destruct (extract_tables_quiet (nth 1 argv [])) as (Hp & Hs & Hx).
    destruct (extract_tables (nth 1 argv [])) as [t [[msg|code]|res]];
      cbn [fst snd events exit_status] in *.
    + rewrite printed_app, stdout_app, Hp, Hs; cbn [printed stdout app]; rewrite app_nil_r.
      repeat split; try (now right); try discriminate.
      * eexists; split; reflexivity.
      * intros (_ & t' & res' & E); discriminate.
    + now destruct (Hx code).
    + rewrite printed_app, stdout_app, Hp, Hs; cbn [printed stdout app]; rewrite app_nil_r.
      repeat split; try (now left); auto.
      * eexists; split; reflexivity.
      * now exists t, res.
Qed.

(** X4: only the first argument after the script's name is read: two
    command lines with the same path run alike, whatever the name of the
    script and the arguments after the path. *)
Theorem other_arguments_ignored (argv argv' : list str) :
  2 <= len argv ->
  2 <= len argv' ->
  nth 1 argv [] = nth 1 argv' [] ->
  run argv = run argv'.
Proof.
  intros H H' E; now rewrite (run_with_path argv H), (run_with_path argv' H'), E.
Qed.

End Handle.

Lemma success_output_witness :
  events (@run people_lib [script_name; sample_path]) =
  [Open sample_path; Close;
   Print (dumps (Results_json
                   (mkResults [mkTable 2 [cellName; cellAge] [[cellAl; cell30]]] true 2)))] /\
  stdout (events (@run people_lib [script_name; sample_path])) =
  dumps (Results_json (mkResults [mkTable 2 [cellName; cellAge] [[cellAl; cell30]]] true 2))
  ++ newline /\
  exit_status (@run people_lib [script_name; sample_path]) = 0.
Proof.
  apply (@success_output people_lib [script_name; sample_path] [Open sample_path; Close]
           (mkResults [mkTable 2 [cellName; cellAge] [[cellAl; cell30]]] true 2));
    [vm_compute; discriminate | reflexivity].
Defined.

Lemma other_arguments_ignored_witness :
  @run people_lib [script_name; sample_path] =
  @run people_lib [lit "extract"; sample_path; lit "--verbose"].
Proof.
  apply (@other_arguments_ignored people_lib [script_name; sample_path]
           [lit "extract"; sample_path; lit "--verbose"]);
    [vm_compute; discriminate | vm_compute; discriminate | reflexivity].
Defined.

(** ** Invariants of the result *)


Lemma emitted_page (page_num : Z) (tabs : list raw_table) :
  Forall (fun tr => page_num + 1 = page tr) (flat_map (emitted page_num) tabs).
Proof.
  apply Forall_forall; intros tr Htr.
  apply in_flat_map in Htr as (table & _ & Hem).
  apply emitted_rows in Hem as [Hp _]; now rewrite Hp.
Qed.

Lemma emitted_pages_range (detected : list (list raw_table)) (start : Z) :
  Forall (fun tr => start + 1 <= page tr <= start + len detected)
         (emitted_pages start detected).
Proof.
  revert start; induction detected as [|tabs detected IH]; intros start; simpl.
  - constructor.
  - rewrite len_cons; pose proof (len_nonneg detected) as Hn.
    apply Forall_app; split.
    + eapply Forall_impl; [|apply emitted_page]; simpl; intros tr <-; lia.
    + eapply Forall_impl; [|apply (IH (start + 1))]; simpl; intros tr; lia.
Qed.




Lemma emitted_row_count (page_num : Z) (table : raw_table) (tr : TableRecord) :
  In tr (emitted page_num table) ->
  hd_error (cleaned_rows table) = Some (headers tr) /\
  length (rows tr) = Nat.max 1 (length (cleaned_rows table) - 1).
Proof.
  unfold emitted; destruct (cleaned_rows table) as [|first [|second rest]]; simpl.
  - tauto.
  - intros [<-|[]]; simpl; auto.
  - intros [<-|[]]; simpl; split; [reflexivity | lia].
Qed.

Section ResultInvariants.

Context {lib : PdfPlumber}.

Lemma has_tables_detected (pdf_path : str) (t : trace) (res : Results) :
  extract_tables pdf_path = (t, inr res) ->
  (has_tables res = true <-> exists i table, detected_on pdf_path i table).
Proof.
  intros H.
  destruct (extract_tables_returns _ _ _ H) as (pdf & pages & detected & Ho & Hp & Hd & _ & ->).
  simpl has_tables; rewrite existsb_exists; split.
  - intros (tabs & Hin & Hne).
    apply In_nth_error in Hin as [i Hi].
    apply (detections_nth_error _ _ Hd) in Hi as (page & Hn & Hx).
    destruct tabs as [|table tabs]; [discriminate|].
    exists i, table, pdf, pages, page, (table :: tabs); simpl; auto 6.
  - intros (i & table & pdf' & pages' & page & tabs & Ho' & Hp' & Hn & Hx & Hin).
    rewrite Ho in Ho'; injection Ho' as <-.
    rewrite Hp in Hp'; injection Hp' as <-.
    exists tabs; split.
    + apply (nth_error_In _ i), (detections_nth_error _ _ Hd); eauto.
    + destruct tabs; [destruct Hin | reflexivity].
Qed.

(** X5: in the result of a run that returns, [has_tables] is true exactly
    when detection returned a table on some page; so a result that holds a
    dictionary has [has_tables] true. *)
Theorem has_tables_meaning (pdf_path : str) (t : trace) (res : Results) :
  extract_tables pdf_path = (t, inr res) ->
  (has_tables res = true <-> exists i table, detected_on pdf_path i table) /\
  (tables res <> [] -> has_tables res = true).
Proof.
  intros H; split; [exact (has_tables_detected pdf_path t res H)|].
  intros Hne; apply (has_tables_detected pdf_path t res H).
  destruct (tables res) as [|tr rest] eqn:E; [congruence|].
  assert (In tr (tables res)) as Hin by (rewrite E; now left).
  apply (extract_tables_In pdf_path t res tr H) in Hin as (i & table & Hd & _).
  now exists i, table.
Qed.

(** X6: [page_count] is the number of pages of the document, and every
    dictionary names a page between 1 and [page_count]. *)
Theorem page_numbers_in_range (pdf_path : str) (t : trace) (res : Results)
        (pdf : PDF) (pages : list Page) :
  extract_tables pdf_path = (t, inr res) ->
  pdfplumber_open pdf_path = inr pdf ->
  pdf_pages pdf = inr pages ->
  page_count res = len pages /\
  Forall (fun tr => 1 <= page tr <= page_count res) (tables res).
Proof.
  intros H Ho Hp.
  destruct (extract_tables_returns _ _ _ H) as (pdf' & pages' & detected & Ho' & Hp' & Hd & _ & ->).
  assert (pdf' = pdf) as -> by congruence.
  assert (pages' = pages) as -> by congruence.
  simpl; split; [reflexivity|].
  eapply Forall_impl; [|apply (emitted_pages_range detected 0)].
  simpl; intros tr; unfold len; rewrite (detections_collect pages) in Hd.
  assert (length detected = length pages) as <-; [|lia].
  clear -Hd; rewrite <- (length_map page_extract_tables pages).
  revert detected Hd; induction (map page_extract_tables pages) as [|[msg|tabs] l IH];
    simpl; intros detected.
  - now intros [= <-].
  - discriminate.
  - destruct (collect l) as [msg|values]; [discriminate|].
    intros [= <-]; simpl; f_equal; now apply IH.
Qed.



(** X9: the headers of a dictionary are the first retained row of its
    table, and [rows] holds one row when one or two rows are retained and
    one row less than retained otherwise: it is never empty. *)
Theorem rows_never_empty (pdf_path : str) (t : trace) (res : Results) (tr : TableRecord) :
  extract_tables pdf_path = (t, inr res) ->
  In tr (tables res) ->
  rows tr <> [] /\
  exists i table,
    detected_on pdf_path i table /\
    hd_error (cleaned_rows table) = Some (headers tr) /\
    length (rows tr) = Nat.max 1 (length (cleaned_rows table) - 1).
Proof.
  intros H Htr.
  apply (extract_tables_In pdf_path t res tr H) in Htr as (i & table & Hd & Hem).
  apply emitted_row_count in Hem as [Hh Hl]; split.
  - intros E; rewrite E in Hl; cbn [length] in Hl; lia.
  - now exists i, table.
Qed.

End ResultInvariants.

Lemma people_returns :
  @extract_tables people_lib sample_path =
  ([Open sample_path; Close],
   inr (mkResults [mkTable 2 [cellName; cellAge] [[cellAl; cell30]]] true 2)).
Proof. reflexivity. Defined.

Lemma has_tables_meaning_witness :
  (has_tables (mkResults [mkTable 2 [cellName; cellAge] [[cellAl; cell30]]] true 2) = true <->
   exists i table, @detected_on people_lib sample_path i table) /\
  (tables (mkResults [mkTable 2 [cellName; cellAge] [[cellAl; cell30]]] true 2) <> [] ->
   has_tables (mkResults [mkTable 2 [cellName; cellAge] [[cellAl; cell30]]] true 2) = true).
Proof.
  exact (@has_tables_meaning people_lib sample_path _ _ people_returns).
Defined.

Lemma page_numbers_in_range_witness :
  page_count (mkResults [mkTable 2 [cellName; cellAge] [[cellAl; cell30]]] true 2)
  = len [plain_page []; plain_page [people_table]] /\
  Forall (fun tr => 1 <= page tr <= 2) [mkTable 2 [cellName; cellAge] [[cellAl; cell30]]].
Proof.
  exact (@page_numbers_in_range people_lib sample_path _ _
           (inr [plain_page []; plain_page [people_table]])
           [plain_page []; plain_page [people_table]] people_returns eq_refl eq_refl).
Defined.



Lemma rows_never_empty_witness :
  rows (mkTable 1 [cellX; cellY] [[cellX; cellY]]) <> [] /\
  exists i table,
    @detected_on degenerate_lib sample_path i table /\
    hd_error (cleaned_rows table) = Some (headers (mkTable 1 [cellX; cellY] [[cellX; cellY]])) /\
    length (rows (mkTable 1 [cellX; cellY] [[cellX; cellY]]))
    = Nat.max 1 (length (cleaned_rows table) - 1).
Proof.
  exact (@rows_never_empty degenerate_lib sample_path [Open sample_path; Close]
           (mkResults [mkTable 1 [cellX; cellY] [[cellX; cellY]]] true 1)
           (mkTable 1 [cellX; cellY] [[cellX; cellY]]) eq_refl (or_introl eq_refl)).
Defined.

(** ** Which rows are retained *)

Lemma lstrip_empty (s : str) : lstrip s = [] <-> forallb isspace s = true.
Proof.
  induction s as [|c s IH]; simpl; [tauto|].
  destruct (isspace c); simpl; [exact IH|].
  split; discriminate.
Qed.

Lemma strip_empty (s : str) : strip s = [] <-> forallb isspace s = true.
Proof.
  rewrite <- lstrip_empty; unfold strip.
  pose proof (lstrip_head s) as H.
  destruct (lstrip s) as [|c r]; [split; reflexivity|].
  destruct (rstrip_keeps_head c r H) as [u ->]; split; discriminate.
Qed.

Lemma not_all_space (s : str) : forallb isspace s <> true <-> existsb visible s = true.
Proof.
  unfold visible; induction s as [|c s IH]; simpl.
  - split; [congruence | discriminate].
  - destruct (isspace c); simpl; [exact IH|].
    split; [reflexivity | discriminate].
Qed.

(** X10: a row is retained exactly when one of its cells is present and
    holds a character that is not whitespace. *)
Theorem retained_iff_visible (raw : raw_row) :
  any (cleaned_row raw) = true <->
  exists s, In (Some s) raw /\ existsb visible s = true.
Proof.
  rewrite any_true; unfold cleaned_row; split.
  - intros (c & Hin & Hne).
    apply in_map_iff in Hin as ([s|] & <- & Hin); [|now destruct Hne].
    exists s; split; [exact Hin|].
    apply not_all_space; rewrite <- strip_empty, <- clean_cell_present; exact Hne.
  - intros (s & Hin & Hv).
    exists (clean_cell (Some s)); split; [now apply in_map|].
    rewrite clean_cell_present, strip_empty; now apply not_all_space.
Qed.

Lemma cleaned_rows_app (t1 t2 : raw_table) :
  cleaned_rows (t1 ++ t2) = cleaned_rows t1 ++ cleaned_rows t2.
Proof. now rewrite !cleaned_rows_filter, map_app, filter_app. Qed.

(** X11: a row without a truthy cell, anywhere in a raw table, changes
    nothing: the table is cleaned, and added to the result, as if the row
    were not there. *)
Theorem blank_row_ignored (before after : raw_table) (blank : raw_row) :
  any (cleaned_row blank) = false ->
  cleaned_rows (before ++ blank :: after) = cleaned_rows (before ++ after) /\
  forall page_num results,
    append_table page_num results (before ++ blank :: after) =
    append_table page_num results (before ++ after).
Proof.
  intros Hblank.
  assert (cleaned_rows (before ++ blank :: after) = cleaned_rows (before ++ after)) as E.
  { rewrite !cleaned_rows_app; f_equal.
    rewrite !cleaned_rows_filter; simpl; now rewrite Hblank. }
  split; [exact E|].
  intros page_num results; unfold append_table; now rewrite E.
Qed.

(** X12: the result does not tell a table with one retained row from a
    table with that row retained twice: both add the same dictionary. *)
Theorem one_row_or_twice (t1 t2 : raw_table) (row : list str) (page_num : Z)
        (results : Results) :
  cleaned_rows t1 = [row] ->
  cleaned_rows t2 = [row; row] ->
  append_table page_num results t1 = append_table page_num results t2.
Proof.
  intros H1 H2; unfold append_table; rewrite H1, H2; reflexivity.
Qed.

Lemma cleaned_rows_stable (cleaned : list (list str)) :
  Forall (fun row => any row = true /\ Forall (fun c => strip c = c) row) cleaned ->
  cleaned_rows (as_raw_table cleaned) = cleaned.
Proof.
  rewrite cleaned_rows_filter; unfold as_raw_table.
  induction 1 as [|row cleaned [Hany Hcells] _ IH]; simpl; [reflexivity|].
  assert (cleaned_row (map (@Some str) row) = row) as ->.
  { unfold cleaned_row; rewrite map_map.
    clear Hany; induction Hcells as [|c row Hc _ IHrow]; cbn [map]; [reflexivity|].
    now rewrite clean_cell_present, Hc, IHrow. }
  now rewrite Hany, IH.
Qed.

(** X13: cleaning is idempotent: the retained rows of a table, given
    back as a raw table, are retained as they are, and add the same
    dictionary. *)
Theorem cleaning_idempotent (table : raw_table) :
  cleaned_rows (as_raw_table (cleaned_rows table)) = cleaned_rows table /\
  forall page_num results,
    append_table page_num results (as_raw_table (cleaned_rows table)) =
    append_table page_num results table.
Proof.
  assert (cleaned_rows (as_raw_table (cleaned_rows table)) = cleaned_rows table) as E.
  { apply cleaned_rows_stable, Forall_forall; intros row Hrow.
    apply cleaned_rows_In in Hrow as (raw & _ & -> & Hany); split; [exact Hany|].
    apply Forall_forall; intros c Hc.
    apply in_map_iff in Hc as (cell & <- & _); apply clean_cell_trimmed. }
  split; [exact E|].
  intros page_num results; unfold append_table; now rewrite E.
Qed.

Lemma blank_row_ignored_witness :
  cleaned_rows ([[Some (lit "Name"); Some (lit "Age")]] ++ [None; Some []]
                  :: [[Some (lit "Al"); Some (lit "30")]])
  = cleaned_rows ([[Some (lit "Name"); Some (lit "Age")]] ++ [[Some (lit "Al"); Some (lit "30")]]) /\
  forall page_num results,
    append_table page_num results
      ([[Some (lit "Name"); Some (lit "Age")]] ++ [None; Some []]
         :: [[Some (lit "Al"); Some (lit "30")]])
    = append_table page_num results
        ([[Some (lit "Name"); Some (lit "Age")]] ++ [[Some (lit "Al"); Some (lit "30")]]).
Proof.
  exact (blank_row_ignored [[Some (lit "Name"); Some (lit "Age")]]
           [[Some (lit "Al"); Some (lit "30")]] [None; Some []] eq_refl).
Defined.

Lemma one_row_or_twice_witness :
  append_table 0 (mkResults [] true 1) [[Some (lit "X"); Some (lit "Y")]]
  = append_table 0 (mkResults [] true 1)
      [[Some (lit "X"); Some (lit "Y")]; [Some (lit "X "); Some (lit " Y")]].
Proof.
  exact (one_row_or_twice [[Some (lit "X"); Some (lit "Y")]]
           [[Some (lit "X"); Some (lit "Y")]; [Some (lit "X "); Some (lit " Y")]]
           [cellX; cellY] 0 (mkResults [] true 1) eq_refl eq_refl).
Defined.

(** ** The printed text *)

Ltac printable_literal :=
  repeat constructor; vm_compute; discriminate.

Lemma hex_digit_printable (d : N) : (d < 16)%N -> printable (hex_digit d).
Proof.
  intros Hd; unfold hex_digit, printable.
  destruct (N.ltb_spec d 10); lia.
Qed.

Lemma nibble_bound (n : N) : (N.land n 15 < 16)%N.
Proof.
  change 15%N with (N.ones 4); rewrite N.land_ones.
  apply N.mod_lt; discriminate.
Qed.

Lemma uescape_printable (n : N) : Forall printable (uescape n).
Proof.
  unfold uescape, hex4.
  repeat (constructor; [first [apply hex_digit_printable, nibble_bound
                              | unfold printable, backslash; lia]|]).
  constructor.
Qed.

Lemma escape_char_printable (c : codepoint) : Forall printable (escape_char c).
Proof.
  unfold escape_char.
  repeat match goal with
         | |- context [N.eqb c ?k] => destruct (N.eqb c k); [printable_literal|]
         end.
  destruct (N.leb 32 c && N.leb c 126)%bool eqn:E.
  - apply andb_true_iff in E as [H1 H2].
    apply N.leb_le in H1, H2; constructor; [split; assumption | constructor].
  - destruct (N.ltb c 65536); [apply uescape_printable|].
    apply Forall_app; split; apply uescape_printable.
Qed.

Lemma encode_string_printable (s : str) : Forall printable (encode_string s).
Proof.
  unfold encode_string; constructor; [unfold printable, quote; lia|].
  apply Forall_app; split; [|printable_literal].
  apply Forall_flat_map, Forall_forall; intros c _; apply escape_char_printable.
Qed.

Lemma digits_printable (d : Decimal.uint) :
  Forall printable (lit (NilEmpty.string_of_uint d)).
Proof.
  induction d; simpl; try constructor; try assumption; unfold printable; simpl; lia.
Qed.

Lemma encode_int_printable (z : Z) : Forall printable (encode_int z).
Proof.
  unfold encode_int; destruct (Z.to_int z) as [d|d]; simpl.
  - apply digits_printable.
  - constructor; [unfold printable; simpl; lia | apply digits_printable].
Qed.

Lemma join_printable (sep : str) (parts : list str) :
  Forall printable sep ->
  Forall (Forall printable) parts ->
  Forall printable (join sep parts).
Proof.
  intros Hsep; induction 1 as [|p rest Hp Hrest IH]; simpl; [constructor|].
  destruct rest as [|q rest]; [exact Hp|].
  apply Forall_app; split; [exact Hp|].
  apply Forall_app; split; [exact Hsep | exact IH].
Qed.

(** [json.dumps] gives printable ASCII only, whatever the strings hold. *)
Lemma dumps_printable (v : json) : Forall printable (dumps v).
Proof.
  induction v as [| b | z | s | l IH | kv IH] using json_induction; cbn [dumps].
  - printable_literal.
  - destruct b; printable_literal.
  - apply encode_int_printable.
  - apply encode_string_printable.
  - apply Forall_app; split; [printable_literal|].
    apply Forall_app; split; [|printable_literal].
    apply join_printable; [printable_literal|].
    apply Forall_map; exact IH.
  - apply Forall_app; split; [printable_literal|].
    apply Forall_app; split; [|printable_literal].
    apply join_printable; [printable_literal|].
    apply Forall_map; eapply Forall_impl; [|exact IH].
    intros item Hitem; cbn beta.
    apply Forall_app; split; [apply encode_string_printable|].
    apply Forall_app; split; [printable_literal | exact Hitem].
Qed.

Section PrintedText.

Context {lib : PdfPlumber}.

Lemma run_prints_json (argv : list str) :
  exists v, stdout (events (run argv)) = dumps v ++ newline.
Proof.
  destruct (Z.ltb_spec (len argv) 2) as [Hlt|Hge].
  - unfold run, main.
    replace (len argv <? 2) with true by (symmetry; apply Z.ltb_lt; exact Hlt).
    exists (error_json (lit "PDF path required")); reflexivity.
  - rewrite (run_with_path argv Hge).
    destruct (extract_tables_quiet (nth 1 argv [])) as (_ & Hs & Hx).
    destruct (extract_tables (nth 1 argv [])) as [t [[msg|code]|res]];
      cbn [fst snd events] in *.
    + exists (error_json msg).
      rewrite stdout_app, Hs; cbn [stdout app]; now rewrite app_nil_r.
    + now destruct (Hx code).
    + exists (Results_json res).
      rewrite stdout_app, Hs; cbn [stdout app]; now rewrite app_nil_r.
Qed.

(** X14: what a run writes to standard output is one line of printable
    ASCII: whatever characters the cells or the error message hold, every
    character before the final newline lies between the space and the
    tilde. *)
Theorem output_one_ascii_line (argv : list str) :
  exists line,
    stdout (events (run argv)) = line ++ newline /\
    Forall printable line.
Proof.
  destruct (run_prints_json argv) as [v Hv].
  exists (dumps v); split; [exact Hv | apply dumps_printable].
Qed.

End PrintedText.

(** ** When a run fails *)

Section Failure.

Context {lib : PdfPlumber}.

Lemma detections_fails (pages : list Page) (msg : str) :
  detections pages = inl msg ->
  exists before page after,
    pages = before ++ page :: after /\
    Forall (fun p => exists tabs, page_extract_tables p = inr tabs) before /\
    page_extract_tables page = inl msg.
Proof.
  induction pages as [|page pages IH]; simpl; [discriminate|].
  destruct (page_extract_tables page) as [msg'|tabs] eqn:E.
  - intros [= ->]; exists [], page, pages; auto.
  - destruct (detections pages) as [msg'|detected]; [|discriminate].
    intros [= ->]; destruct (IH eq_refl) as (before & p & after & -> & Hb & Hp).
    exists (page :: before), p, after; repeat split; auto.
    constructor; [now exists tabs | exact Hb].
Qed.

Lemma raise_means_fault (pdf_path : str) (t : trace) (msg : str) :
  extract_tables pdf_path = (t, inl (PyException msg)) -> faults pdf_path msg.
Proof.
  rewrite extract_tables_cases.
  destruct (pdfplumber_open pdf_path) as [msg'|pdf] eqn:Ho.
  - intros [= _ ->]; now apply fault_open.
  - destruct (pdf_pages pdf) as [msg'|pages] eqn:Hp.
    + intros [= _ ->]; now apply (fault_pages pdf_path msg pdf).
    + destruct (detections pages) as [msg'|detected] eqn:Hd; [|discriminate].
      intros [= _ ->].
      destruct (detections_fails pages msg Hd) as (before & page & after & -> & Hb & Hx).
      now apply (fault_detection pdf_path msg pdf before page after).
Qed.

(** X15: a run that was given a path and exits with status 1 met a fault
    while opening or scanning the document, and its output is the error
    line with the message of that fault. *)
Theorem failure_means_fault (argv : list str) :
  2 <= len argv ->
  exit_status (run argv) = 1 ->
  exists msg,
    faults (nth 1 argv []) msg /\
    stdout (events (run argv)) = error_line msg ++ newline.
Proof.
  intros Hlen; rewrite (run_with_path argv Hlen).
  destruct (extract_tables_quiet (nth 1 argv [])) as (_ & Hs & Hx).
  destruct (extract_tables (nth 1 argv [])) as [t [[msg|code]|res]] eqn:E;
    cbn [fst snd events exit_status] in *.
  - intros _; exists msg; split; [exact (raise_means_fault _ t msg E)|].
    rewrite stdout_app, Hs, dumps_error_json; cbn [stdout app]; now rewrite app_nil_r.
  - now destruct (Hx code).
  - discriminate.
Qed.

End Failure.

Lemma failure_means_fault_witness :
  exists msg,
    @faults broken_lib (nth 1 [script_name; sample_path] []) msg /\
    stdout (events (@run broken_lib [script_name; sample_path])) = error_line msg ++ newline.
Proof.
  apply (@failure_means_fault broken_lib [script_name; sample_path]);
    [vm_compute; discriminate | reflexivity].
Defined.
